(** * qerr: the QUIC error value, its constructors, classifier, formatter
      and converter (internal/qerr/quic_error.go)

    The Go package is embedded shallowly.  Unsigned 64-bit integers are
    binary naturals, Go strings are [string] (a list of bytes), the struct
    is a record with the field names of the source, and the [error]
    interface is an inductive type with one constructor per dynamic type
    that [ToQuicError] distinguishes.  A run-time panic is an explicit
    outcome of the [result] type. *)

From Stdlib Require Import NArith Bool String Ascii List Lia.
From Stdlib Require Import Hexadecimal HexadecimalString HexadecimalN.

Local Open Scope string_scope.
Local Open Scope N_scope.

(** ** Go base types *)

Module Go.

(** [uint64]: a natural below [2^64]; arithmetic wraps around. *)
Definition uint64 := N.
Definition uint8 := N.

Definition wrap64 (n : N) : uint64 := n mod 2 ^ 64.

(** Outcome of a call that may panic at run time. *)
Inductive result (A : Type) : Type :=
| Ok (a : A)
| Panic.
Arguments Ok {A} a.
Arguments Panic {A}.

Definition bind {A B : Type} (r : result A) (k : A -> result B) : result B :=
  match r with
  | Ok a => k a
  | Panic => Panic
  end.

(** [len(s)] for a string. *)
Definition len (s : string) : nat := String.length s.

(** [fmt.Sprintf("%#x", n)] for an unsigned integer: the prefix [0x]
    and the lower-case hexadecimal digits, a single [0] for zero. *)
Definition sprintf_hex (n : uint64) : string :=
  "0x" ++ NilZero.string_of_uint (N.to_hex_uint n).

End Go.

Notation "x <- r ;; k" := (Go.bind r (fun x => k))
  (at level 61, r at next level, right associativity).

(** ** The error-code registry (declared outside quic_error.go) *)

Module Codes.

(** Modelled from the spec: the type declaration of [ErrorCode] is not in
    quic_error.go.  The spec calls it an unsigned numeric error code; the
    source converts it with [uint64(e.ErrorCode)] and into it with
    [ErrorCode(tlsAlert)], so it is taken as a 64-bit unsigned integer. *)
Definition ErrorCode := Go.uint64.

(** Modelled from the spec: the registry's range check
    [ErrorCode.isCryptoError], which quic_error.go calls and does not
    define.  The reserved crypto band starts at the fixed base [0x100]
    and holds one code per alert value [0..255]. *)
Definition isCryptoError (c : ErrorCode) : bool :=
  (0x100 <=? c) && (c <? 0x200).

(** What quic_error.go takes from the rest of the registry: the canonical
    short name of a code ([ErrorCode.String]), its default message
    ([ErrorCode.Message]) and the constant [InternalError].  Their
    bodies are not part of the file, so they are an interface. *)
Class Registry : Type := {
  ErrorCode_String : ErrorCode -> string;
  ErrorCode_Message : ErrorCode -> string;
  InternalError : ErrorCode
}.

End Codes.

(** ** quic_error.go *)

Module qerr.

Import Go.
Export Codes.

(** [type QuicError struct].  The zero value of every field is the
    default a composite literal leaves when the field is not named. *)
Record QuicError : Type := mkQuicError {
  ErrorCode : Codes.ErrorCode;
  FrameType : uint64; (* only valid if this not an application error *)
  ErrorMessage : string;
  isTimeout : bool;
  isApplicationError : bool
}.

(** Assignment to the exported field [ErrorCode]. *)
Definition set_ErrorCode (c : Codes.ErrorCode) (e : QuicError) : QuicError :=
  {| ErrorCode := c; FrameType := FrameType e;
     ErrorMessage := ErrorMessage e;
     isTimeout := isTimeout e;
     isApplicationError := isApplicationError e |}.

Definition NewError (errorCode : Codes.ErrorCode) (errorMessage : string)
  : QuicError :=
  {| ErrorCode := errorCode;
     FrameType := 0;
     ErrorMessage := errorMessage;
     isTimeout := false;
     isApplicationError := false |}.

Definition NewErrorWithFrameType (errorCode : Codes.ErrorCode)
    (frameType : uint64) (errorMessage : string) : QuicError :=
  {| ErrorCode := errorCode;
     FrameType := frameType;
     ErrorMessage := errorMessage;
     isTimeout := false;
     isApplicationError := false |}.

Definition NewTimeoutError (errorMessage : string) : QuicError :=
  {| ErrorCode := 0;
     FrameType := 0;
     ErrorMessage := errorMessage;
     isTimeout := true;
     isApplicationError := false |}.

(** [0x100 + ErrorCode(tlsAlert)]: the conversion widens the alert, the
    sum is taken in [ErrorCode]. *)
Definition NewCryptoError (tlsAlert : uint8) (errorMessage : string)
  : QuicError :=
  {| ErrorCode := wrap64 (0x100 + tlsAlert);
     FrameType := 0;
     ErrorMessage := errorMessage;
     isTimeout := false;
     isApplicationError := false |}.

Definition NewApplicationError (errorCode : Codes.ErrorCode)
    (errorMessage : string) : QuicError :=
  {| ErrorCode := errorCode;
     FrameType := 0;
     ErrorMessage := errorMessage;
     isTimeout := false;
     isApplicationError := true |}.

(** Classifier. *)
Definition IsCryptoError (e : QuicError) : bool :=
  Codes.isCryptoError (ErrorCode e).

Definition IsApplicationError (e : QuicError) : bool :=
  isApplicationError e.

Definition Temporary (e : QuicError) : bool := false.

Definition Timeout (e : QuicError) : bool := isTimeout e.

(** The dynamic content of a value of the interface type [error], as
    far as the type switch of [ToQuicError] tells the cases apart. *)
Inductive error : Type :=
| error_nil                               (* the nil interface value *)
| error_QuicError (e : QuicError)         (* dynamic type *QuicError *)
| error_ErrorCode (c : Codes.ErrorCode)   (* dynamic type ErrorCode *)
| error_other (description : string).     (* any other type; its Error() *)

Section WithRegistry.

Context {registry : Registry}.

(** [func (e *QuicError) Error() string] *)
Definition Error (e : QuicError) : string :=
  if isApplicationError e then
    if Nat.eqb (len (ErrorMessage e)) 0 then
      "Application error " ++ sprintf_hex (ErrorCode e)
    else
      "Application error " ++ sprintf_hex (ErrorCode e)
        ++ ": " ++ ErrorMessage e
  else
    let str := ErrorCode_String (ErrorCode e) in
    let str :=
      if negb (FrameType e =? 0) then
        str ++ " (frame type: " ++ sprintf_hex (FrameType e) ++ ")"
      else str in
    let msg := ErrorMessage e in
    let msg :=
      if Nat.eqb (len msg) 0 then ErrorCode_Message (ErrorCode e)
      else msg in
    if Nat.eqb (len msg) 0 then str
    else str ++ ": " ++ msg.

(** [func ToQuicError(err error) *QuicError].  The type switch has the
    cases [*QuicError] and [ErrorCode]; every other value falls
    through to [NewError(InternalError, err.Error())].  There the
    method call [err.Error()] returns the description of a foreign
    error, and panics on the nil interface value, which matches no
    case of the switch. *)
Definition ToQuicError (err : error) : result QuicError :=
  match err with
  | error_QuicError e => Ok e
  | error_ErrorCode e => Ok (NewError e "")
  | error_other description => Ok (NewError InternalError description)
  | error_nil => Panic
  end.

(** The values a caller can hold: what the five constructors return,
    and what the converter returns on a bare code, on a foreign error
    or on such a value again. *)
Inductive Constructed : QuicError -> Prop :=
| by_NewError c m : Constructed (NewError c m)
| by_NewErrorWithFrameType c ft m :
    Constructed (NewErrorWithFrameType c ft m)
| by_NewTimeoutError m : Constructed (NewTimeoutError m)
| by_NewCryptoError a m : a < 256 -> Constructed (NewCryptoError a m)
| by_NewApplicationError c m : Constructed (NewApplicationError c m)
| by_ToQuicError err e :
    (forall e0, err = error_QuicError e0 -> Constructed e0) ->
    ToQuicError err = Ok e ->
    Constructed e.

End WithRegistry.

End qerr.

Import Go qerr.

(** ** Categories and the rendering rules, in the words of the specification *)

(** The three categories the two flags encode. *)
Inductive Category : Type := Transport | Application | TimeoutCategory.

Definition in_category (k : Category) (e : QuicError) : bool :=
  match k with
  | Transport => negb (isTimeout e) && negb (isApplicationError e)
  | Application => isApplicationError e
  | TimeoutCategory => isTimeout e
  end.

(** The reserved crypto band as a range of codes. *)
Definition in_crypto_band (c : Codes.ErrorCode) : Prop :=
  0x100 <= c < 0x200.

(** The characters [%x] prints. *)
Definition is_hex_digit (c : ascii) : bool :=
  existsb (Ascii.eqb c) (list_ascii_of_string "0123456789abcdef").

(** What may follow the digits of a number in a rendering: the end of the
    string, or a character that is not itself a digit. *)
Definition after_digits (s : string) : Prop :=
  match s with
  | EmptyString => True
  | String c _ => is_hex_digit c = false
  end.

(** The two optional parts of a rendering: the frame context after the
    short name, and the message after a colon. *)
Definition frame_part (frameType : uint64) : string :=
  if N.eq_dec frameType 0 then ""
  else " (frame type: " ++ sprintf_hex frameType ++ ")".

Definition message_part (m : string) : string :=
  match m with
  | EmptyString => ""
  | _ => ": " ++ m
  end.

Section RenderingRules.

Context {registry : Registry}.

(** The registry's short name for the code, followed by the frame
    context when the frame type is not zero. *)
Definition short_name_part (e : QuicError) : string :=
  ErrorCode_String (ErrorCode e) ++
  (if N.eq_dec (FrameType e) 0 then ""
   else " (frame type: " ++ sprintf_hex (FrameType e) ++ ")").

(** The stored message if it is not empty, else the registry's default
    message for the code. *)
Definition resolved_message (e : QuicError) : string :=
  match ErrorMessage e with
  | EmptyString => ErrorCode_Message (ErrorCode e)
  | m => m
  end.

(** Rendering of a value that is not an application error. *)
Definition render_non_application (e : QuicError) : string :=
  match resolved_message e with
  | EmptyString => short_name_part e
  | m => short_name_part e ++ ": " ++ m
  end.

(** Rendering of an application error. *)
Definition render_application (e : QuicError) : string :=
  match ErrorMessage e with
  | EmptyString => "Application error " ++ sprintf_hex (ErrorCode e)
  | m => "Application error " ++ sprintf_hex (ErrorCode e) ++ ": " ++ m
  end.

End RenderingRules.

(** A registry on which the formatter can be run: two named codes, one
    name for the crypto band, a default message for the band only.  The
    theorems below hold for every registry; this one gives the concrete
    evaluations. *)
Definition sample_registry : Registry :=
  {| ErrorCode_String := fun c =>
       match c with
       | 0 => "NO_ERROR"
       | 1 => "INTERNAL_ERROR"
       | _ => if Codes.isCryptoError c then "CRYPTO_ERROR"
              else "unknown error code: " ++ sprintf_hex c
       end;
     ErrorCode_Message := fun c =>
       if Codes.isCryptoError c then "handshake alert" else "";
     InternalError := 1 |}.

(** ** Helper lemmas *)

Lemma append_empty_r (s : string) : s ++ "" = s.
Proof.
  induction s as [| a s IH]; simpl; [reflexivity | now rewrite IH].
Qed.

Lemma isCryptoError_band (c : Codes.ErrorCode) :
  Codes.isCryptoError c = true <-> in_crypto_band c.
Proof.
  unfold Codes.isCryptoError, in_crypto_band.
  rewrite andb_true_iff, N.leb_le, N.ltb_lt. reflexivity.
Qed.

Lemma wrap64_small (n : N) : n < 2 ^ 64 -> wrap64 n = n.
Proof. intro H. unfold wrap64. now apply N.mod_small. Qed.

(** The digits [sprintf_hex] prints read back as the number printed. *)
Lemma sprintf_hex_digits (n : N) :
  exists digits,
    sprintf_hex n = "0x" ++ digits /\
    option_map N.of_hex_uint (NilZero.uint_of_string digits) = Some n.
Proof.
  exists (NilZero.string_of_uint (N.to_hex_uint n)). split; [reflexivity |].
  destruct (NilZero.usu_gen (N.to_hex_uint n)) as [H | H].
  - rewrite H. simpl. now rewrite HexadecimalN.Unsigned.of_to.
  - destruct n as [| p].
    + reflexivity.
    + rewrite H. exfalso.
      assert (Hnil : N.to_hex_uint (N.pos p) <> Nil).
      { intro E. apply (f_equal N.of_hex_uint) in E.
        rewrite HexadecimalN.Unsigned.of_to in E. discriminate. }
      rewrite (NilZero.usu _ Hnil) in H.
      injection H as H. apply (f_equal N.of_hex_uint) in H.
      change (N.of_hex_uint (N.to_hex_uint (N.pos p)) = 0) in H.
      rewrite HexadecimalN.Unsigned.of_to in H. discriminate.
Qed.

Lemma flags_exclusive_one_category (e : QuicError) :
  isTimeout e && isApplicationError e = false ->
  exists k, in_category k e = true /\
            forall k', in_category k' e = true -> k' = k.
Proof.
  intro H.
  destruct (isTimeout e) eqn:Ht, (isApplicationError e) eqn:Ha;
    try discriminate.
  - exists TimeoutCategory. unfold in_category. rewrite Ht, Ha.
    split; [reflexivity |]. intros [] Hk; simpl in Hk;
      try discriminate; reflexivity.
  - exists Application. unfold in_category. rewrite Ht, Ha.
    split; [reflexivity |]. intros [] Hk; simpl in Hk;
      try discriminate; reflexivity.
  - exists Transport. unfold in_category. rewrite Ht, Ha.
    split; [reflexivity |]. intros [] Hk; simpl in Hk;
      try discriminate; reflexivity.
Qed.

(** ** The classifier *)



(** C5: for an alert value [a] in [0,255] the crypto-error constructor
    builds a value whose code is [0x100 + a], on which [IsCryptoError()]
    is true and [IsApplicationError()] is false; its category is
    transport (neither flag is set). *)
Theorem NewCryptoError_code_and_class :
  forall (a : uint8) (m : string),
    a <= 255 ->
    ErrorCode (NewCryptoError a m) = 0x100 + a /\
    IsCryptoError (NewCryptoError a m) = true /\
    IsApplicationError (NewCryptoError a m) = false /\
    in_category Transport (NewCryptoError a m) = true.
Proof.
  intros a m Ha. unfold uint8 in a.
  assert (Hcode : ErrorCode (NewCryptoError a m) = 0x100 + a).
  { change (wrap64 (0x100 + a) = 0x100 + a). apply wrap64_small.
    apply N.le_lt_trans with (m := 0x100 + 255); [lia | reflexivity]. }
  split; [exact Hcode |]. split.
  - unfold IsCryptoError. rewrite Hcode.
    apply isCryptoError_band. unfold in_crypto_band. lia.
  - split; reflexivity.
Qed.

Lemma NewCryptoError_code_and_class_witness :
  40 <= 255 /\
  ErrorCode (NewCryptoError 40 "handshake failure") = 0x100 + 40 /\
  IsCryptoError (NewCryptoError 40 "handshake failure") = true /\
  IsApplicationError (NewCryptoError 40 "handshake failure") = false /\
  in_category Transport (NewCryptoError 40 "handshake failure") = true.
Proof.
  split; [lia |].
  apply (NewCryptoError_code_and_class 40 "handshake failure"). lia.
Defined.

(** C6: whatever code and message are given, the application-error
    constructor leaves the frame type at 0, and so does the timeout
    constructor: neither sets a frame type. *)
Theorem application_and_timeout_frameType_zero :
  (forall (c : Codes.ErrorCode) (m : string),
     FrameType (NewApplicationError c m) = 0) /\
  (forall m : string, FrameType (NewTimeoutError m) = 0).
Proof. split; intros; reflexivity. Qed.

(** C10: the plain transport constructor and the constructor with frame
    context called with frame type 0 build equal values, so no observer
    tells them apart: the classifier predicates and, for every registry,
    the formatter agree on them. *)
Theorem NewError_eq_NewErrorWithFrameType_zero :
  forall (c : Codes.ErrorCode) (m : string),
    NewError c m = NewErrorWithFrameType c 0 m /\
    (forall (A : Type) (observer : QuicError -> A),
       observer (NewError c m) = observer (NewErrorWithFrameType c 0 m)) /\
    (forall registry : Registry,
       @Error registry (NewError c m)
       = @Error registry (NewErrorWithFrameType c 0 m)) /\
    IsCryptoError (NewError c m)
    = IsCryptoError (NewErrorWithFrameType c 0 m) /\
    IsApplicationError (NewError c m)
    = IsApplicationError (NewErrorWithFrameType c 0 m) /\
    Timeout (NewError c m) = Timeout (NewErrorWithFrameType c 0 m) /\
    Temporary (NewError c m) = Temporary (NewErrorWithFrameType c 0 m).
Proof.
  intros c m.
  assert (E : NewError c m = NewErrorWithFrameType c 0 m) by reflexivity.
  split; [exact E |].
  split; [intros A observer; now rewrite E |].
  repeat split; now rewrite E.
Qed.

(** ** The formatter *)

Lemma append_assoc (s1 s2 s3 : string) : (s1 ++ s2) ++ s3 = s1 ++ s2 ++ s3.
Proof.
  induction s1 as [| a s1 IH]; simpl; [reflexivity | now rewrite IH].
Qed.

Section Formatter.

Context {registry : Registry}.

(** The formatter never reads [isTimeout]. *)
Lemma Error_ignores_isTimeout (e : QuicError) (t : bool) :
  Error (mkQuicError (ErrorCode e) (FrameType e) (ErrorMessage e) t
           (isApplicationError e))
  = Error e.
Proof. reflexivity. Qed.

(** The second branch of [Error] is the non-application rendering rule. *)
Lemma Error_non_application (e : QuicError) :
  isApplicationError e = false -> Error e = render_non_application e.
Proof.
  intro Ha. unfold Error, render_non_application, resolved_message,
    short_name_part.
  rewrite Ha.
  destruct (N.eq_dec (FrameType e) 0) as [Hft | Hft].
  - rewrite Hft. simpl negb. cbv iota. rewrite append_empty_r.
    destruct (ErrorMessage e) as [| a s]; [| reflexivity].
    change (Nat.eqb (len "") 0) with true. cbv iota.
    destruct (ErrorCode_Message (ErrorCode e)); reflexivity.
  - apply N.eqb_neq in Hft. rewrite Hft. simpl negb. cbv iota.
    destruct (ErrorMessage e) as [| a s]; [| reflexivity].
    change (Nat.eqb (len "") 0) with true. cbv iota.
    destruct (ErrorCode_Message (ErrorCode e)); reflexivity.
Qed.

(** The first branch of [Error] is the application rendering rule. *)
Lemma Error_application (e : QuicError) :
  isApplicationError e = true -> Error e = render_application e.
Proof.
  intro Ha. unfold Error, render_application. rewrite Ha.
  destruct (ErrorMessage e); reflexivity.
Qed.

End Formatter.

(** C2 (as stated, refuted): on the sample registry the timeout error with
    message "idle" renders as "NO_ERROR: idle", the short name of its code
    0; with the exported code field set to 1 the same timeout error renders
    as "INTERNAL_ERROR: idle".  The rendered string of a timeout error
    depends on the code. *)
Lemma timeout_rendering_depends_on_code :
  ErrorCode (NewTimeoutError "idle") = 0 /\
  @Error sample_registry (NewTimeoutError "idle") = "NO_ERROR: idle" /\
  Timeout (set_ErrorCode 1 (NewTimeoutError "idle")) = true /\
  @Error sample_registry (set_ErrorCode 1 (NewTimeoutError "idle"))
  = "INTERNAL_ERROR: idle" /\
  ~ (forall (registry : Registry) (m : string) (c : Codes.ErrorCode),
       @Error registry (set_ErrorCode c (NewTimeoutError m))
       = @Error registry (NewTimeoutError m)).
Proof.
  repeat (split; [reflexivity |]).
  intro H. specialize (H sample_registry "idle" 1). discriminate H.
Qed.

(** C2 (amended): the timeout constructor leaves the code at its zero
    value, and the formatter renders the value by the rule of every
    non-application error, from the code 0: the registry's short name for
    code 0, then the stored message or, when it is empty, the registry's
    default message for code 0.  What the formatter does not read is the
    [isTimeout] flag: a timeout error renders as the plain transport error
    with code 0 and the same message. *)
Theorem NewTimeoutError_code_zero_and_rendering :
  forall (registry : Registry) (m : string),
    ErrorCode (NewTimeoutError m) = 0 /\
    Error (NewTimeoutError m) = Error (NewError 0 m) /\
    Error (NewTimeoutError m)
    = match m with
      | EmptyString =>
          match ErrorCode_Message 0 with
          | EmptyString => ErrorCode_String 0
          | d => ErrorCode_String 0 ++ ": " ++ d
          end
      | _ => ErrorCode_String 0 ++ ": " ++ m
      end /\
    (forall (e : QuicError) (t : bool),
       Error (mkQuicError (ErrorCode e) (FrameType e) (ErrorMessage e) t
                (isApplicationError e))
       = Error e).
Proof.
  intros registry m.
  split; [reflexivity |]. split; [reflexivity |]. split.
  - rewrite Error_non_application by reflexivity.
    unfold render_non_application, resolved_message, short_name_part.
    simpl. rewrite append_empty_r. destruct m; reflexivity.
  - intros e t. apply Error_ignores_isTimeout.
Qed.



(** C8: for an application error the formatter renders "Application error "
    and the code in 0x-prefixed hexadecimal when the message is empty, and
    that string, ": " and the message otherwise.  Code 0x42 with an empty
    message gives "Application error 0x42"; code 0x1 with message "bye"
    gives "Application error 0x1: bye". *)
Theorem Error_renders_application :
  forall (registry : Registry) (e : QuicError),
    isApplicationError e = true ->
    Error e = render_application e /\
    (exists digits,
       option_map N.of_hex_uint (NilZero.uint_of_string digits)
       = Some (ErrorCode e) /\
       Error e
       = match ErrorMessage e with
         | EmptyString => "Application error 0x" ++ digits
         | m => "Application error 0x" ++ digits ++ ": " ++ m
         end) /\
    Error (NewApplicationError 0x42 "") = "Application error 0x42" /\
    Error (NewApplicationError 0x1 "bye") = "Application error 0x1: bye".
Proof.
  intros registry e Ha. split; [now apply Error_application |]. split.
  - destruct (sprintf_hex_digits (ErrorCode e)) as [digits [Hd Hback]].
    exists digits. split; [exact Hback |].
    rewrite Error_application by exact Ha. unfold render_application.
    rewrite Hd. destruct (ErrorMessage e); reflexivity.
  - split; reflexivity.
Qed.

Lemma Error_renders_application_witness :
  isApplicationError (NewApplicationError 0xff "closing") = true /\
  @Error sample_registry (NewApplicationError 0xff "closing")
  = "Application error 0xff: closing".
Proof.
  split; [reflexivity |].
  destruct (Error_renders_application sample_registry
              (NewApplicationError 0xff "closing") eq_refl) as [H _].
  rewrite H. reflexivity.
Defined.

(** ** The converter *)

Section Converter.

Context {registry : Registry}.

Lemma ToQuicError_Ok_inv (err : error) (e : QuicError) :
  ToQuicError err = Ok e ->
  err = error_QuicError e \/
  (exists c, err = error_ErrorCode c /\ e = NewError c "") \/
  (exists d, err = error_other d /\ e = NewError InternalError d).
Proof.
  destruct err as [| e0 | c | d]; simpl; intro H.
  - discriminate H.
  - injection H as <-. now left.
  - injection H as <-. right; left. now exists c.
  - injection H as <-. right; right. now exists d.
Qed.

Lemma ToQuicError_Panic_iff (err : error) :
  ToQuicError err = Panic <-> err = error_nil.
Proof.
  destruct err; simpl; split; intro H;
    try reflexivity; discriminate H.
Qed.

Lemma Constructed_flags (e : QuicError) :
  Constructed e -> isTimeout e && isApplicationError e = false.
Proof.
  induction 1 as [c m | c ft m | m | a m Ha | c m | err e Hin IH Hconv];
    try reflexivity.
  destruct (ToQuicError_Ok_inv err e Hconv)
    as [-> | [[c [-> ->]] | [d [-> ->]]]].
  - now apply (IH e).
  - reflexivity.
  - reflexivity.
Qed.

End Converter.

(** C3: the converter returns a value that is already an error value
    unchanged, so converting the result of a conversion gives the result
    of the first conversion again, for every input (a run that panics
    stays a run that panics). *)
Theorem ToQuicError_idempotent :
  forall (registry : Registry),
    (forall e : QuicError, ToQuicError (error_QuicError e) = Ok e) /\
    (forall x : error,
       (e <- ToQuicError x ;; ToQuicError (error_QuicError e))
       = ToQuicError x).
Proof.
  intro registry. split; [reflexivity |].
  intro x. destruct (ToQuicError x) as [e |]; reflexivity.
Qed.

(** C4: on every value built by one of the five constructors or returned
    by the converter, [isTimeout] and [isApplicationError] are not both
    true, and the value is in exactly one of the categories transport,
    application, timeout. *)
Theorem Constructed_exactly_one_category :
  forall (registry : Registry) (e : QuicError),
    Constructed e ->
    isTimeout e && isApplicationError e = false /\
    exists k : Category,
      in_category k e = true /\
      forall k' : Category, in_category k' e = true -> k' = k.
Proof.
  intros registry e He.
  pose proof (Constructed_flags e He) as Hf.
  split; [exact Hf |]. now apply flags_exclusive_one_category.
Qed.

Lemma Constructed_exactly_one_category_witness :
  @Constructed sample_registry
    (NewError (@InternalError sample_registry) "boom") /\
  isTimeout (NewError (@InternalError sample_registry) "boom")
  && isApplicationError (NewError (@InternalError sample_registry) "boom")
  = false.
Proof.
  assert (Hc : @Constructed sample_registry
                 (NewError (@InternalError sample_registry) "boom")).
  { apply (by_ToQuicError (error_other "boom")).
    - intros e0 H. discriminate H.
    - reflexivity. }
  split; [exact Hc |].
  exact (proj1 (Constructed_exactly_one_category sample_registry _ Hc)).
Defined.




(** ** Further properties of the values, the formatter and the converter *)

(** *** Strings and hexadecimal digits *)

Lemma append_cancel_l (p s1 s2 : string) : p ++ s1 = p ++ s2 -> s1 = s2.
Proof.
  induction p as [| a p IH]; simpl; intro H; [exact H |].
  injection H as H. now apply IH.
Qed.

Lemma to_hex_uint_not_Nil (n : N) : N.to_hex_uint n <> Nil.
Proof.
  destruct n as [| p]; [discriminate |].
  intro E. apply (f_equal N.of_hex_uint) in E.
  rewrite HexadecimalN.Unsigned.of_to in E. discriminate E.
Qed.

Lemma to_hex_uint_inj (n m : N) : N.to_hex_uint n = N.to_hex_uint m -> n = m.
Proof.
  intro H. apply (f_equal N.of_hex_uint) in H.
  now rewrite !HexadecimalN.Unsigned.of_to in H.
Qed.

Lemma NilZero_digits_NilEmpty (n : N) :
  NilZero.string_of_uint (N.to_hex_uint n)
  = NilEmpty.string_of_uint (N.to_hex_uint n).
Proof.
  pose proof (to_hex_uint_not_Nil n) as H.
  destruct (N.to_hex_uint n); [now contradiction H | reflexivity ..].
Qed.

(** A run of hexadecimal digits followed by the end or by a character
    that is no digit determines the digits and what follows them. *)
Lemma hex_digits_cancel (d1 : Hexadecimal.uint) :
  forall (d2 : Hexadecimal.uint) (s1 s2 : string),
    after_digits s1 -> after_digits s2 ->
    NilEmpty.string_of_uint d1 ++ s1 = NilEmpty.string_of_uint d2 ++ s2 ->
    d1 = d2 /\ s1 = s2.
Proof.
  induction d1 as [| d1 IH | d1 IH | d1 IH | d1 IH | d1 IH | d1 IH | d1 IH
                   | d1 IH | d1 IH | d1 IH | d1 IH | d1 IH | d1 IH | d1 IH
                   | d1 IH | d1 IH];
    intros [| d2 | d2 | d2 | d2 | d2 | d2 | d2 | d2 | d2 | d2 | d2 | d2
            | d2 | d2 | d2 | d2] s1 s2 H1 H2 E; simpl in E;
    try (split; [reflexivity | exact E]);
    try (rewrite E in H1; discriminate H1);
    try (rewrite <- E in H2; discriminate H2);
    try discriminate E;
    injection E as E; destruct (IH d2 s1 s2 H1 H2 E) as [-> ->];
    split; reflexivity.
Qed.

Lemma sprintf_hex_cancel (n m : N) (s1 s2 : string) :
  after_digits s1 -> after_digits s2 ->
  sprintf_hex n ++ s1 = sprintf_hex m ++ s2 -> n = m /\ s1 = s2.
Proof.
  intros H1 H2 E. unfold sprintf_hex in E.
  rewrite !NilZero_digits_NilEmpty in E.
  simpl in E. injection E as E.
  destruct (hex_digits_cancel _ _ _ _ H1 H2 E) as [Hd Hs].
  split; [now apply to_hex_uint_inj | exact Hs].
Qed.

Lemma append_self_empty (s t : string) : s = s ++ t -> t = "".
Proof.
  intro H. symmetry. apply (append_cancel_l s).
  now rewrite append_empty_r.
Qed.

Lemma message_part_after_digits (m : string) : after_digits (message_part m).
Proof. destruct m; simpl; [exact I | reflexivity]. Qed.

Lemma message_part_inj (m1 m2 : string) :
  message_part m1 = message_part m2 -> m1 = m2.
Proof.
  destruct m1 as [| a1 m1], m2 as [| a2 m2]; simpl; intro H;
    try reflexivity; try discriminate H.
  injection H as -> ->. reflexivity.
Qed.

(** The frame context and the message that follow a short name determine
    the frame type and the message. *)
Lemma frame_and_message_inj (ft1 ft2 : uint64) (m1 m2 : string) :
  frame_part ft1 ++ message_part m1 = frame_part ft2 ++ message_part m2 ->
  ft1 = ft2 /\ m1 = m2.
Proof.
  unfold frame_part.
  destruct (N.eq_dec ft1 0) as [-> | H1], (N.eq_dec ft2 0) as [-> | H2].
  - simpl. intro H. split; [reflexivity | now apply message_part_inj].
  - intro H. exfalso. destruct m1; simpl in H; discriminate H.
  - intro H. exfalso. destruct m2; simpl in H; discriminate H.
  - rewrite !append_assoc. intro H. apply append_cancel_l in H.
    apply sprintf_hex_cancel in H; try reflexivity.
    destruct H as [-> H]. split; [reflexivity |].
    apply append_cancel_l in H. now apply message_part_inj.
Qed.

Section RenderingShape.

Context {registry : Registry}.

(** Both branches of [Error] as a head followed by the optional parts. *)
Lemma Error_application_parts (e : QuicError) :
  isApplicationError e = true ->
  Error e
  = "Application error "
      ++ sprintf_hex (ErrorCode e) ++ message_part (ErrorMessage e).
Proof.
  intro Ha. rewrite (Error_application e Ha). unfold render_application.
  destruct (ErrorMessage e); simpl message_part;
    [now rewrite append_empty_r | reflexivity].
Qed.

Lemma Error_non_application_parts (e : QuicError) :
  isApplicationError e = false ->
  Error e
  = ErrorCode_String (ErrorCode e)
      ++ frame_part (FrameType e) ++ message_part (resolved_message e).
Proof.
  intro Ha. rewrite (Error_non_application e Ha).
  unfold render_non_application, short_name_part.
  fold (frame_part (FrameType e)).
  destruct (resolved_message e); simpl message_part.
  - now rewrite append_empty_r.
  - now rewrite append_assoc.
Qed.


End RenderingShape.

(** *** Values a caller can hold *)




(** X3: for alert values up to 255 the crypto-error constructor builds the
    plain transport error with code [0x100 + a]; the alert is the code
    minus [0x100], and two crypto errors are equal only for the same alert
    and the same message. *)
Theorem NewCryptoError_alert_round_trip :
  forall (a b : uint8) (m m' : string),
    a <= 255 -> b <= 255 ->
    NewCryptoError a m = NewError (0x100 + a) m /\
    ErrorCode (NewCryptoError a m) - 0x100 = a /\
    (NewCryptoError a m = NewCryptoError b m' -> a = b /\ m = m').
Proof.
  intros a b m m' Ha Hb. unfold uint8 in a, b.
  assert (Hw : forall x : N, x <= 255 -> wrap64 (0x100 + x) = 0x100 + x).
  { intros x Hx. apply wrap64_small.
    apply N.le_lt_trans with (m := 0x100 + 255); [lia | reflexivity]. }
  unfold NewCryptoError, NewError. rewrite (Hw a Ha), (Hw b Hb).
  split; [reflexivity |]. split.
  - cbn [ErrorCode]. lia.
  - intro H.
    assert (Hc : 0x100 + a = 0x100 + b)
      by exact (f_equal ErrorCode H).
    assert (Hm : m = m') by exact (f_equal ErrorMessage H).
    split; [lia | exact Hm].
Qed.

Lemma NewCryptoError_alert_round_trip_witness :
  40 <= 255 /\ 80 <= 255 /\
  ErrorCode (NewCryptoError 40 "handshake failure") - 0x100 = 40.
Proof.
  split; [lia |]. split; [lia |].
  assert (H40 : 40 <= 255) by lia. assert (H80 : 80 <= 255) by lia.
  exact (proj1 (proj2 (NewCryptoError_alert_round_trip
                         40 80 "handshake failure" "" H40 H80))).
Defined.

(** *** The formatter *)

(** X4: the rendering of an application error is the same for every
    registry and whatever the frame type and the timeout flag hold: it
    reads the code and the message only. *)
Theorem Error_application_reads_code_and_message :
  forall (registry1 registry2 : Registry) (e : QuicError)
         (frameType : uint64) (timeout : bool),
    isApplicationError e = true ->
    @Error registry1
      (mkQuicError (ErrorCode e) frameType (ErrorMessage e) timeout true)
    = @Error registry2 e.
Proof.
  intros registry1 registry2 e frameType timeout Ha.
  rewrite !Error_application_parts by (exact Ha || reflexivity).
  reflexivity.
Qed.

Lemma Error_application_reads_code_and_message_witness :
  isApplicationError (NewApplicationError 0x10 "bye") = true /\
  @Error sample_registry (mkQuicError 0x10 7 "bye" true true)
  = @Error sample_registry (NewApplicationError 0x10 "bye").
Proof.
  split; [reflexivity |].
  exact (Error_application_reads_code_and_message
           sample_registry sample_registry
           (NewApplicationError 0x10 "bye") 7 true eq_refl).
Defined.

(** X5: two application errors with the same rendering have the same code
    and the same message. *)
Theorem Error_application_injective :
  forall (registry : Registry) (e1 e2 : QuicError),
    isApplicationError e1 = true ->
    isApplicationError e2 = true ->
    Error e1 = Error e2 ->
    ErrorCode e1 = ErrorCode e2 /\ ErrorMessage e1 = ErrorMessage e2.
Proof.
  intros registry e1 e2 H1 H2 E.
  rewrite (Error_application_parts e1 H1),
    (Error_application_parts e2 H2) in E.
  apply append_cancel_l in E.
  apply sprintf_hex_cancel in E; try apply message_part_after_digits.
  destruct E as [Hc Hm]. split; [exact Hc | now apply message_part_inj].
Qed.

Lemma Error_application_injective_witness :
  isApplicationError (NewApplicationError 0x1a "bye") = true /\
  ErrorCode (NewApplicationError 0x1a "bye")
  = ErrorCode (mkQuicError 0x1a 3 "bye" true true).
Proof.
  split; [reflexivity |].
  exact (proj1 (Error_application_injective sample_registry
                  (NewApplicationError 0x1a "bye")
                  (mkQuicError 0x1a 3 "bye" true true)
                  eq_refl eq_refl eq_refl)).
Defined.

(** X6: two values that are not application errors and have the same code
    render alike exactly when they have the same frame type and the same
    message after the default message of the code has replaced an empty
    one. *)
Theorem Error_non_application_eq_iff :
  forall (registry : Registry) (e1 e2 : QuicError),
    isApplicationError e1 = false ->
    isApplicationError e2 = false ->
    ErrorCode e1 = ErrorCode e2 ->
    (Error e1 = Error e2 <->
     FrameType e1 = FrameType e2 /\
     resolved_message e1 = resolved_message e2).
Proof.
  intros registry e1 e2 H1 H2 Hc.
  rewrite (Error_non_application_parts e1 H1),
    (Error_non_application_parts e2 H2), Hc.
  split.
  - intro E. apply append_cancel_l in E.
    now apply frame_and_message_inj.
  - intros [-> ->]. reflexivity.
Qed.

Lemma Error_non_application_eq_iff_witness :
  isApplicationError (NewErrorWithFrameType 0x128 7 "") = false /\
  @Error sample_registry (NewErrorWithFrameType 0x128 7 "")
  = @Error sample_registry (NewErrorWithFrameType 0x128 7 "handshake alert").
Proof.
  split; [reflexivity |].
  apply (Error_non_application_eq_iff sample_registry
           (NewErrorWithFrameType 0x128 7 "")
           (NewErrorWithFrameType 0x128 7 "handshake alert")
           eq_refl eq_refl eq_refl).
  split; reflexivity.
Defined.

(** X7: a transport error that stores the default message of its code
    renders as the one that stores no message. *)
Theorem Error_default_message_explicit :
  forall (registry : Registry) (c : Codes.ErrorCode) (frameType : uint64),
    Error (NewErrorWithFrameType c frameType (ErrorCode_Message c))
    = Error (NewErrorWithFrameType c frameType "").
Proof.
  intros registry c frameType.
  rewrite !Error_non_application_parts by reflexivity.
  unfold resolved_message. cbn [ErrorMessage ErrorCode FrameType
                                 NewErrorWithFrameType].
  destruct (ErrorCode_Message c); reflexivity.
Qed.

(** *** The converter followed by the formatter *)

(** X8: the rendering of a converted error.  An error value keeps its
    rendering; a bare code renders as its short name and, if it has one,
    its default message; a foreign error renders as the short name of
    [InternalError], a colon and its description, and when the description
    is empty as [InternalError] with its default message. *)
Theorem Error_of_ToQuicError :
  forall (registry : Registry) (err : error) (e : QuicError),
    ToQuicError err = Ok e ->
    Error e
    = match err with
      | error_nil => ""
      | error_QuicError e0 => Error e0
      | error_ErrorCode c =>
          ErrorCode_String c ++ message_part (ErrorCode_Message c)
      | error_other EmptyString =>
          ErrorCode_String InternalError
            ++ message_part (ErrorCode_Message InternalError)
      | error_other description =>
          ErrorCode_String InternalError ++ ": " ++ description
      end.
Proof.
  intros registry err e H.
  destruct (ToQuicError_Ok_inv err e H)
    as [-> | [[c [-> ->]] | [d [-> ->]]]].
  - reflexivity.
  - now rewrite Error_non_application_parts by reflexivity.
  - rewrite Error_non_application_parts by reflexivity.
    destruct d; reflexivity.
Qed.

Lemma Error_of_ToQuicError_witness :
  @ToQuicError sample_registry (error_other "boom")
  = Ok (NewError 1 "boom") /\
  @Error sample_registry (NewError 1 "boom") = "INTERNAL_ERROR: boom".
Proof.
  split; [reflexivity |].
  rewrite (Error_of_ToQuicError sample_registry (error_other "boom")
             (NewError 1 "boom") eq_refl).
  reflexivity.
Defined.
